(** * app.js: the viewer bootstrapper

    The script constructs one Cesium viewer with a fixed option object,
    hides the credit element, and registers one click listener that asks
    the engine to load a CZML file into the viewer and resets the camera.

    The script itself ([script], [clickHandler], [viewer_options]) is
    embedded as a program over the calls it makes to the hosting page and
    to the engine.  The engine and the page are not part of the
    repository; [engine] and [step] model their reaction to those calls. *)

From Stdlib Require Import ZArith Lia.
From stdpp Require Import base strings list gmap.

Local Open Scope string_scope.
Local Open Scope list_scope.

(** ** Values handed to the engine *)

(** The values that occur in the option object literal of app.js. *)
Inductive value : Type :=
| VBool (b : bool)
| VNull.

#[global] Instance value_eq_dec : EqDecision value.
Proof. solve_decision. Defined.

(** A viewer is referred to by its position in the store of constructed
    viewers; a pending load by its position in the loader's table. *)
Abbreviation ViewerRef := nat (only parsing).
Abbreviation promise := nat (only parsing).

(** What [viewer.dataSources.add] returns: the promise of the overlay
    once it has been appended. *)
Inductive added : Type :=
| Added (viewer : ViewerRef) (p : promise).

(** The function expression of app.js lines 18-23, with the variable it
    captures. *)
Inductive closure : Type :=
| SatellitesClick (viewer : ViewerRef).

(** What can be thrown: the engine's own error, and the error of a member
    access on [null] or [undefined]. *)
Inductive error : Type :=
| DeveloperError (what : string)
| TypeError.

(** ** Programs over engine calls *)

(** The calls app.js makes, indexed by the type of what they return. *)
Inductive call : Type -> Type :=
| NewViewer (container : string) (options : gmap string value) : call ViewerRef
| SetCreditDisplay (viewer : ViewerRef) (display : string) : call unit
| GetElementById (id : string) : call (option string)
| AddEventListener (element : string) (type : string) (listener : closure) : call unit
| CzmlLoad (url : string) : call promise
| DataSourcesAdd (viewer : ViewerRef) (p : promise) : call added
| FlyHome (viewer : ViewerRef) (duration : Z) : call unit.

Inductive prog (A : Type) : Type :=
| Ret (a : A)
| Throw (e : error)
| Do {X : Type} (c : call X) (k : X -> prog A).

Arguments Ret {A} a.
Arguments Throw {A} e.
Arguments Do {A X} c k.

Fixpoint pbind {A B : Type} (p : prog A) (f : A -> prog B) : prog B :=
  match p with
  | Ret a => f a
  | Throw e => Throw e
  | Do c k => Do c (fun x => pbind (k x) f)
  end.

Definition perform {X : Type} (c : call X) : prog X := Do c Ret.

(** Member access on a value that may be [null]. *)
Definition deref {A : Type} (o : option A) : prog A :=
  match o with
  | Some a => Ret a
  | None => Throw TypeError
  end.

Declare Scope prog_scope.
Delimit Scope prog_scope with prog.
Notation "x <- p ;; q" := (pbind p (fun x => q))
  (at level 100, p at next level, right associativity) : prog_scope.
Notation "p ;; q" := (pbind p (fun _ => q))
  (at level 100, right associativity) : prog_scope.
Local Open Scope prog_scope.

(** ** The script *)

(** app.js lines 1-12: the second argument of [new Cesium.Viewer]. *)
Definition viewer_options : gmap string value :=
  list_to_map
    [ ("shouldAnimate", VBool true);
      ("animation", VBool false);
      ("timeline", VBool false);
      ("fullscreenButton", VBool false);
      ("homeButton", VBool false);
      ("geocoder", VBool false);
      ("navigationHelpButton", VBool false);
      ("sceneModePicker", VBool false);
      ("baseLayerPicker", VBool false);
      ("creditContainer", VNull) ].

(** app.js lines 18-23: the body of the click listener. *)
Definition clickHandler (viewer : ViewerRef) : prog unit :=
  p <- perform (CzmlLoad "../czml_data/simple.czml") ;;
  perform (DataSourcesAdd viewer p) ;;
  perform (FlyHome viewer 0).

(** app.js, top level. *)
Definition script : prog unit :=
  viewer <- perform (NewViewer "cesiumContainer" viewer_options) ;;
  perform (SetCreditDisplay viewer "none") ;;
  button <- (el <- perform (GetElementById "satellitesButton") ;; deref el) ;;
  perform (AddEventListener button "click" (SatellitesClick viewer)).

Definition apply_closure (f : closure) : prog unit :=
  match f with
  | SatellitesClick viewer => clickHandler viewer
  end.

(** ** The page and the engine *)

(** Modelled from the spec: the camera of a session, at the home view,
    somewhere else, or on a flight home that takes time (section 6, (e):
    duration 0 is instant). *)
Inductive Camera : Type :=
| AtHome
| Away (pose : nat)
| FlyingHome (duration : Z).

(** A loaded overlay: the load it came from and the path that was read. *)
Record DataSource : Type := {
  ds_load : promise;
  ds_url : string }.

(** Modelled from the spec: the display session (section 3): the options
    chosen at construction, the display style of the credit element, the
    overlay collection, the camera. *)
Record Viewer : Type := {
  container : string;
  options : gmap string value;
  creditDisplay : string;
  dataSources : list DataSource;
  camera : Camera }.

(** An element of the page, with the listeners registered on it. *)
Record Element : Type := {
  listeners : list (string * closure) }.

Inductive settled : Type :=
| Pending
| Fulfilled
| Rejected.

(** Modelled from the spec: a load the asynchronous loader was asked for
    (section 6, (d)), and the sessions whose collection waits for it. *)
Record Load : Type := {
  url : string;
  state : settled;
  waiting : list ViewerRef }.

(** A call as it is seen from outside, without what it returned. *)
Inductive command : Type :=
| CNewViewer (container : string) (options : gmap string value)
| CSetCreditDisplay (viewer : ViewerRef) (display : string)
| CGetElementById (id : string)
| CAddEventListener (element : string) (type : string) (listener : closure)
| CLoad (url : string)
| CAdd (viewer : ViewerRef) (p : promise)
| CFlyHome (viewer : ViewerRef) (duration : Z).

Definition command_of {X : Type} (c : call X) : command :=
  match c with
  | NewViewer cont opts => CNewViewer cont opts
  | SetCreditDisplay v s => CSetCreditDisplay v s
  | GetElementById id => CGetElementById id
  | AddEventListener el ty f => CAddEventListener el ty f
  | CzmlLoad u => CLoad u
  | DataSourcesAdd v p => CAdd v p
  | FlyHome v d => CFlyHome v d
  end.

(** A rejection nobody handles: of a load that was never passed on, or of
    the promise [dataSources.add] returned. *)
Inductive rejection : Type :=
| LoadRejected (p : promise)
| AddRejected (a : added).

(** Modelled from the spec: everything the script can reach.  The page
    and the engine are outside the repository; [issued] keeps the calls
    made so far, oldest first. *)
Record World : Type := {
  document : gmap string Element;
  viewers : list Viewer;
  loads : list Load;
  issued : list command;
  unhandled : list rejection;
  uncaught : list error }.

Definition set_document (d : gmap string Element) (w : World) : World :=
  {| document := d; viewers := viewers w; loads := loads w;
     issued := issued w; unhandled := unhandled w; uncaught := uncaught w |}.

Definition set_viewers (vs : list Viewer) (w : World) : World :=
  {| document := document w; viewers := vs; loads := loads w;
     issued := issued w; unhandled := unhandled w; uncaught := uncaught w |}.

Definition set_loads (ls : list Load) (w : World) : World :=
  {| document := document w; viewers := viewers w; loads := ls;
     issued := issued w; unhandled := unhandled w; uncaught := uncaught w |}.

Definition note (c : command) (w : World) : World :=
  {| document := document w; viewers := viewers w; loads := loads w;
     issued := issued w ++ [c]; unhandled := unhandled w;
     uncaught := uncaught w |}.

Definition reject (r : rejection) (w : World) : World :=
  {| document := document w; viewers := viewers w; loads := loads w;
     issued := issued w; unhandled := unhandled w ++ [r];
     uncaught := uncaught w |}.

Definition report (e : error) (w : World) : World :=
  {| document := document w; viewers := viewers w; loads := loads w;
     issued := issued w; unhandled := unhandled w;
     uncaught := uncaught w ++ [e] |}.

Definition set_creditDisplay (s : string) (v : Viewer) : Viewer :=
  {| container := container v; options := options v; creditDisplay := s;
     dataSources := dataSources v; camera := camera v |}.

Definition set_camera (c : Camera) (v : Viewer) : Viewer :=
  {| container := container v; options := options v;
     creditDisplay := creditDisplay v; dataSources := dataSources v;
     camera := c |}.

Definition push_dataSource (d : DataSource) (v : Viewer) : Viewer :=
  {| container := container v; options := options v;
     creditDisplay := creditDisplay v; dataSources := dataSources v ++ [d];
     camera := camera v |}.

Definition set_state (s : settled) (l : Load) : Load :=
  {| url := url l; state := s; waiting := waiting l |}.

Definition add_waiting (v : ViewerRef) (l : Load) : Load :=
  {| url := url l; state := state l; waiting := waiting l ++ [v] |}.

(** Modelled from the spec: the session a fresh [Cesium.Viewer] starts
    as.  The credit element is there and displayed whatever
    [creditContainer] was given (section 4.1: the option alone does not
    remove it), there is no overlay, the camera is at the home view. *)
Definition fresh_viewer (cont : string) (opts : gmap string value) : Viewer :=
  {| container := cont; options := opts; creditDisplay := "";
     dataSources := []; camera := AtHome |}.

Definition append_overlay (d : DataSource) (w : World) (v : ViewerRef) : World :=
  set_viewers (alter (push_dataSource d) v (viewers w)) w.

Definition M (A : Type) : Type := World -> World * (error + A).

(** Modelled from the spec: the reaction of the page and of the engine to
    one call (section 6, (a) to (e); section 7 for the failures).  Every
    call is noted in [issued] first. *)
Definition engine {X : Type} (c : call X) : M X :=
  match c in call X return M X with
  | NewViewer cont opts => fun w =>
      let w := note (CNewViewer cont opts) w in
      match document w !! cont with
      | Some _ =>
          (set_viewers (viewers w ++ [fresh_viewer cont opts]) w,
           inr (length (viewers w)))
      | None => (w, inl (DeveloperError cont))
      end
  | SetCreditDisplay v s => fun w =>
      let w := note (CSetCreditDisplay v s) w in
      match viewers w !! v with
      | Some _ => (set_viewers (alter (set_creditDisplay s) v (viewers w)) w, inr tt)
      | None => (w, inl TypeError)
      end
  | GetElementById id => fun w =>
      let w := note (CGetElementById id) w in
      match document w !! id with
      | Some _ => (w, inr (Some id))
      | None => (w, inr None)
      end
  | AddEventListener el ty f => fun w =>
      let w := note (CAddEventListener el ty f) w in
      match document w !! el with
      | Some e =>
          (set_document
             (<[el := {| listeners := listeners e ++ [(ty, f)] |}]> (document w)) w,
           inr tt)
      | None => (w, inl TypeError)
      end
  | CzmlLoad u => fun w =>
      let w := note (CLoad u) w in
      (set_loads (loads w ++ [{| url := u; state := Pending; waiting := [] |}]) w,
       inr (length (loads w)))
  | DataSourcesAdd v p => fun w =>
      let w := note (CAdd v p) w in
      match viewers w !! v, loads w !! p with
      | Some _, Some l =>
          match state l with
          | Pending =>
              (set_loads (alter (add_waiting v) p (loads w)) w, inr (Added v p))
          | Fulfilled =>
              (append_overlay {| ds_load := p; ds_url := url l |} w v,
               inr (Added v p))
          | Rejected => (reject (AddRejected (Added v p)) w, inr (Added v p))
          end
      | Some _, None => (w, inl (DeveloperError "dataSource"))
      | None, _ => (w, inl TypeError)
      end
  | FlyHome v d => fun w =>
      let w := note (CFlyHome v d) w in
      match viewers w !! v with
      | Some _ =>
          (set_viewers
             (alter (set_camera (if (d =? 0)%Z then AtHome else FlyingHome d)) v
                (viewers w)) w,
           inr tt)
      | None => (w, inl TypeError)
      end
  end.

Fixpoint exec {A : Type} (p : prog A) (w : World) : World * (error + A) :=
  match p with
  | Ret a => (w, inr a)
  | Throw e => (w, inl e)
  | Do c k =>
      match engine c w with
      | (w', inr x) => exec (k x) w'
      | (w', inl e) => (w', inl e)
      end
  end.

(** A job of the event loop: the script itself, or one listener call.
    What it throws reaches no caller; the page reports it. *)
Definition job (p : prog unit) (w : World) : World :=
  match exec p w with
  | (w', inr _) => w'
  | (w', inl e) => report e w'
  end.

(** Loading the page runs app.js once. *)
Definition boot (w : World) : World := job script w.

(** Modelled from the spec: the page calls, in order of registration, the
    listeners the element had for this event type when the event fired.
    The element is the target of the event itself; events that reach it
    from elements inside it are not modelled. *)
Definition dispatch (id type : string) (w : World) : World :=
  match document w !! id with
  | Some el =>
      foldl (fun w tf => if String.eqb (fst tf) type
                         then job (apply_closure (snd tf)) w else w)
            w (listeners el)
  | None => w
  end.

(** Modelled from the spec: a pending load ends.  When it succeeded the
    overlay is appended to every collection it was handed to; when it
    failed nothing is appended and the rejection stays unhandled. *)
Definition settle (p : promise) (ok : bool) (w : World) : World :=
  match loads w !! p with
  | Some l =>
      match state l with
      | Pending =>
          if ok then
            foldl (append_overlay {| ds_load := p; ds_url := url l |})
                  (set_loads (alter (set_state Fulfilled) p (loads w)) w)
                  (waiting l)
          else
            foldl (fun w v => reject (AddRejected (Added v p)) w)
                  (match waiting l with
                   | [] => reject (LoadRejected p)
                             (set_loads (alter (set_state Rejected) p (loads w)) w)
                   | _ => set_loads (alter (set_state Rejected) p (loads w)) w
                   end)
                  (waiting l)
      | _ => w
      end
  | None => w
  end.

(** What happens to the page after it was loaded. *)
Inductive event : Type :=
| Click (id : string)
| Settle (p : promise) (ok : bool)
| Drag (viewer : ViewerRef) (pose : nat).

Definition step (w : World) (e : event) : World :=
  match e with
  | Click id => dispatch id "click" w
  | Settle p ok => settle p ok w
  | Drag v pose => set_viewers (alter (set_camera (Away pose)) v (viewers w)) w
  end.

Definition run (evs : list event) (w : World) : World := foldl step w evs.

(** A page that was just parsed: the elements with these ids, nothing
    constructed, nothing requested. *)
Definition page (ids : gset string) : World :=
  {| document := gset_to_gmap {| listeners := [] |} ids;
     viewers := []; loads := []; issued := [];
     unhandled := []; uncaught := [] |}.

Definition session (evs : list event) (ids : gset string) : World :=
  run evs (boot (page ids)).


(** ** Observations *)

#[global] Instance settled_eq_dec : EqDecision settled.
Proof. solve_decision. Defined.

Definition czml : string := "../czml_data/simple.czml".
Definition button : string := "satellitesButton".

(** The overlay collection of the session the script constructed. *)
Definition overlays (w : World) : list DataSource :=
  match viewers w !! 0 with
  | Some v => dataSources v
  | None => []
  end.

(** The paths of the load-requests among some commands, in order. *)
Definition load_requests (cs : list command) : list string :=
  omap (fun c => match c with CLoad u => Some u | _ => None end) cs.

(** The camera-reset commands among some commands, in order. *)
Definition camera_resets (cs : list command) : list (ViewerRef * Z) :=
  omap (fun c => match c with CFlyHome v d => Some (v, d) | _ => None end) cs.

Definition is_button_click (e : event) : bool :=
  match e with
  | Click id => String.eqb id button
  | _ => false
  end.

(** How often the registered control was clicked. *)
Definition clicks (evs : list event) : nat :=
  length (List.filter is_button_click evs).

Definition fulfilled (ls : list Load) : nat :=
  length (filter (fun l => state l = Fulfilled) ls).

Definition rejected (ls : list Load) : nat :=
  length (filter (fun l => state l = Rejected) ls).

(** Every load has ended, one way or the other. *)
Definition all_settled (w : World) : Prop :=
  Forall (fun l => state l <> Pending) (loads w).

(** Every load has ended well. *)
Definition all_fulfilled (w : World) : Prop :=
  Forall (fun l => state l = Fulfilled) (loads w).

(** Modelled from the spec: how a UI feature of the session reads.  A
    widget is there unless its option is [false]; the credit element is
    visible unless its style hides it. *)
Definition shown (feature : string) (v : Viewer) : bool :=
  if String.eqb feature "creditContainer"
  then negb (String.eqb (creditDisplay v) "none")
  else match options v !! feature with
       | Some (VBool false) => false
       | _ => true
       end.

(** Modelled from the spec: the clock runs by itself when the option
    says so. *)
Definition animates (v : Viewer) : bool :=
  match options v !! "shouldAnimate" with
  | Some (VBool true) => true
  | _ => false
  end.

Definition toggles : list string :=
  [ "animation"; "timeline"; "fullscreenButton"; "homeButton"; "geocoder";
    "navigationHelpButton"; "sceneModePicker"; "baseLayerPicker";
    "creditContainer" ].

(** What the script issues while the page loads, and on the [i]-th click. *)
Definition boot_issued : list command :=
  [ CNewViewer "cesiumContainer" viewer_options;
    CSetCreditDisplay 0 "none";
    CGetElementById button;
    CAddEventListener button "click" (SatellitesClick 0) ].

Definition click_issued (v : ViewerRef) (i : promise) : list command :=
  [ CLoad czml; CAdd v i; CFlyHome v 0 ].

(** The world once the listener has run for viewer [v]. *)
Definition clicked (v : ViewerRef) (w : World) : World :=
  {| document := document w;
     viewers := alter (set_camera AtHome) v (viewers w);
     loads := loads w ++ [{| url := czml; state := Pending; waiting := [v] |}];
     issued := issued w ++ click_issued v (length (loads w));
     unhandled := unhandled w;
     uncaught := uncaught w |}.

Definition the_viewer (ds : list DataSource) (cam : Camera) : Viewer :=
  {| container := "cesiumContainer"; options := viewer_options;
     creditDisplay := "none"; dataSources := ds; camera := cam |}.

(** What holds of the page from the end of a successful start on. *)
Record Ready (w : World) : Prop := {
  ready_button :
    document w !! button = Some {| listeners := [("click", SatellitesClick 0)] |};
  ready_quiet :
    forall id el, id <> button -> document w !! id = Some el -> listeners el = [];
  ready_viewer : exists ds cam, viewers w = [the_viewer ds cam];
  ready_loads : Forall (fun l => url l = czml /\ waiting l = [0]) (loads w);
  ready_issued :
    issued w = boot_issued ++ flat_map (click_issued 0) (seq 0 (length (loads w)));
  ready_overlays : length (overlays w) = fulfilled (loads w);
  ready_sources :
    Forall (fun d => ds_url d = czml /\
                     state <$> loads w !! ds_load d = Some Fulfilled) (overlays w);
  ready_unhandled : length (unhandled w) = rejected (loads w);
  ready_uncaught : uncaught w = [] }.

(** An engine as the script sees it: what each call returns. *)
Definition oracle : Type := forall X : Type, call X -> X.

(** The calls a program makes when the engine answers as [o] does. *)
Fixpoint calls {A : Type} (o : oracle) (p : prog A) : list command :=
  match p with
  | Ret _ => []
  | Throw _ => []
  | Do c k => command_of c :: calls o (k (o _ c))
  end.

(** The value a program ends with, if it does not throw. *)
Fixpoint result {A : Type} (o : oracle) (p : prog A) : option A :=
  match p with
  | Ret a => Some a
  | Throw _ => None
  | Do c k => result o (k (o _ c))
  end.

(** An engine that hands out [p] for a load and [a] for an append. *)
Definition answering (p : promise) (a : added) : oracle :=
  fun X c =>
    match c in call X return X with
    | NewViewer _ _ => 0
    | SetCreditDisplay _ _ => tt
    | GetElementById id => Some id
    | AddEventListener _ _ _ => tt
    | CzmlLoad _ => p
    | DataSourcesAdd _ _ => a
    | FlyHome _ _ => tt
    end.

(** The identifiers and the path a command may carry. *)
Definition fixed_names (c : command) : Prop :=
  match c with
  | CNewViewer cont _ => cont = "cesiumContainer"
  | CGetElementById id => id = "satellitesButton"
  | CAddEventListener el ty _ => el = "satellitesButton" /\ ty = "click"
  | CLoad u => u = "../czml_data/simple.czml"
  | _ => True
  end.

(** [w'] has issued what [w] had, then further commands, all of which
    carry the fixed names. *)
Definition grows (w w' : World) : Prop :=
  exists k, issued w' = issued w ++ k /\ Forall fixed_names k.

(** The page whose start failed because the container is missing. *)
Definition stuck (ids : gset string) : World :=
  {| document := gset_to_gmap {| listeners := [] |} ids;
     viewers := []; loads := [];
     issued := [CNewViewer "cesiumContainer" viewer_options];
     unhandled := [];
     uncaught := [DeveloperError "cesiumContainer"] |}.

(** The page whose start stopped at the missing button: the session is
    there, with its credit element hidden, and nothing listens. *)
Definition unwired (ids : gset string) (cam : Camera) : World :=
  {| document := gset_to_gmap {| listeners := [] |} ids;
     viewers := [the_viewer [] cam]; loads := [];
     issued := [ CNewViewer "cesiumContainer" viewer_options;
                 CSetCreditDisplay 0 "none";
                 CGetElementById button ];
     unhandled := [];
     uncaught := [TypeError] |}.

(** The overlays are, one for one, the loads that were fulfilled. *)
Definition exact_overlays (w : World) : Prop :=
  NoDup (ds_load <$> overlays w) /\
  forall i, state <$> loads w !! i = Some Fulfilled -> i ∈ ds_load <$> overlays w.

(** ** The listener *)

Ltac world_simpl :=
  cbv [set_document set_viewers set_loads note reject report append_overlay
       document viewers loads issued unhandled uncaught] in *.

Lemma alter_snoc {A : Type} (f : A -> A) (l : list A) (x : A) :
  alter f (length l) (l ++ [x]) = l ++ [f x].
Proof.
  replace (length l) with (length l + 0) by lia.
  rewrite alter_app_r. reflexivity.
Qed.

Lemma exec_clickHandler (w : World) (v : ViewerRef) :
  is_Some (viewers w !! v) ->
  exec (clickHandler v) w = (clicked v w, inr tt).
Proof.
  intros [vw Hv]. destruct w as [doc vs ls cs un uc]. simpl in Hv.
  unfold clicked. simpl. rewrite Hv.
  rewrite (list_lookup_middle ls [] _ (length ls) eq_refl). simpl.
  rewrite Hv. simpl. rewrite alter_snoc. world_simpl.
  unfold click_issued, czml. rewrite <- !app_assoc. reflexivity.
Qed.

(** ** Counting loads by how they ended *)

Lemma fulfilled_app (l k : list Load) :
  fulfilled (l ++ k) = fulfilled l + fulfilled k.
Proof. unfold fulfilled. rewrite filter_app, length_app. reflexivity. Qed.

Lemma rejected_app (l k : list Load) :
  rejected (l ++ k) = rejected l + rejected k.
Proof. unfold rejected. rewrite filter_app, length_app. reflexivity. Qed.

Lemma fulfilled_cons (x : Load) (l : list Load) :
  fulfilled (x :: l) = (if decide (state x = Fulfilled) then 1 else 0) + fulfilled l.
Proof.
  unfold fulfilled. rewrite filter_cons. destruct (decide _); reflexivity.
Qed.

Lemma rejected_cons (x : Load) (l : list Load) :
  rejected (x :: l) = (if decide (state x = Rejected) then 1 else 0) + rejected l.
Proof.
  unfold rejected. rewrite filter_cons. destruct (decide _); reflexivity.
Qed.

Lemma settle_counts (ls : list Load) (p : promise) (l : Load) (s : settled) :
  ls !! p = Some l -> state l = Pending ->
  fulfilled (alter (set_state s) p ls)
    = fulfilled ls + (if decide (s = Fulfilled) then 1 else 0) /\
  rejected (alter (set_state s) p ls)
    = rejected ls + (if decide (s = Rejected) then 1 else 0).
Proof.
  intros Hl Hs.
  destruct (list_elem_of_split_length _ _ _ Hl) as (l1 & l2 & -> & ->).
  rewrite alter_app_r_alt by lia.
  replace (length l1 - length l1) with 0 by lia. simpl.
  rewrite !fulfilled_app, !rejected_app, !fulfilled_cons, !rejected_cons.
  simpl. rewrite Hs.
  destruct s; repeat (destruct (decide _); try congruence); lia.
Qed.

Lemma all_fulfilled_count (ls : list Load) :
  Forall (fun l => state l = Fulfilled) ls -> fulfilled ls = length ls.
Proof.
  induction 1 as [|x l Hx _ IH]; [reflexivity|].
  rewrite fulfilled_cons, IH. destruct (decide _); [reflexivity|contradiction].
Qed.

(** ** Commands issued by clicks *)

Lemma load_requests_app (a b : list command) :
  load_requests (a ++ b) = load_requests a ++ load_requests b.
Proof. apply omap_app. Qed.

Lemma camera_resets_app (a b : list command) :
  camera_resets (a ++ b) = camera_resets a ++ camera_resets b.
Proof. apply omap_app. Qed.

Lemma load_requests_clicks (n m : nat) :
  load_requests (flat_map (click_issued 0) (seq m n)) = repeat czml n.
Proof.
  revert m. induction n as [|n IH]; intros m; [reflexivity|].
  simpl. f_equal. apply IH.
Qed.

Lemma camera_resets_clicks (n m : nat) :
  camera_resets (flat_map (click_issued 0) (seq m n)) = repeat (0, 0%Z) n.
Proof.
  revert m. induction n as [|n IH]; intros m; [reflexivity|].
  simpl. f_equal. apply IH.
Qed.

Lemma clicks_app (a b : list event) : clicks (a ++ b) = clicks a + clicks b.
Proof. unfold clicks. rewrite List.filter_app, length_app. reflexivity. Qed.

(** ** Loading the page *)

Lemma exec_script (w : World) (c b : Element) :
  document w !! "cesiumContainer" = Some c ->
  document w !! button = Some b ->
  exec script w =
    ({| document :=
          <[button := {| listeners :=
               listeners b ++ [("click", SatellitesClick (length (viewers w)))] |}]>
            (document w);
        viewers :=
          viewers w ++
            [set_creditDisplay "none" (fresh_viewer "cesiumContainer" viewer_options)];
        loads := loads w;
        issued :=
          issued w ++
            [ CNewViewer "cesiumContainer" viewer_options;
              CSetCreditDisplay (length (viewers w)) "none";
              CGetElementById button;
              CAddEventListener button "click" (SatellitesClick (length (viewers w))) ];
        unhandled := unhandled w;
        uncaught := uncaught w |}, inr tt).
Proof.
  intros Hc Hb. destruct w as [doc vs ls cs un uc]. unfold button in *.
  simpl in *. rewrite Hc. simpl.
  rewrite (list_lookup_middle vs [] _ (length vs) eq_refl). simpl.
  rewrite Hb. simpl. rewrite Hb. world_simpl. rewrite alter_snoc.
  rewrite <- !app_assoc. reflexivity.
Qed.

Lemma page_lookup (ids : gset string) (id : string) :
  id ∈ ids -> document (page ids) !! id = Some {| listeners := [] |}.
Proof. intros H. simpl. apply lookup_gset_to_gmap_Some. auto. Qed.

Lemma boot_page (ids : gset string) :
  "cesiumContainer" ∈ ids -> button ∈ ids ->
  boot (page ids) =
    {| document :=
         <[button := {| listeners := [("click", SatellitesClick 0)] |}]>
           (document (page ids));
       viewers := [the_viewer [] AtHome];
       loads := []; issued := boot_issued; unhandled := []; uncaught := [] |}.
Proof.
  intros Hc Hb. unfold boot, job.
  rewrite (exec_script _ _ _ (page_lookup _ _ Hc) (page_lookup _ _ Hb)).
  reflexivity.
Qed.

Lemma ready_boot (ids : gset string) :
  "cesiumContainer" ∈ ids -> button ∈ ids -> Ready (boot (page ids)).
Proof.
  intros Hc Hb. rewrite (boot_page _ Hc Hb).
  split; simpl; try reflexivity; try (constructor; fail).
  - apply lookup_insert_eq.
  - intros id el Hne. rewrite lookup_insert_ne by congruence.
    intros [_ <-]%lookup_gset_to_gmap_Some. reflexivity.
  - eauto.
Qed.

(** ** One event on a started page *)

Lemma dispatch_button (w : World) :
  Ready w -> dispatch button "click" w = clicked 0 w.
Proof.
  intros R. unfold dispatch. rewrite (ready_button _ R). simpl.
  unfold job. rewrite exec_clickHandler; [reflexivity|].
  destruct (ready_viewer _ R) as (ds & cam & ->). simpl. eauto.
Qed.

Lemma dispatch_other (w : World) (id : string) :
  Ready w -> id <> button -> dispatch id "click" w = w.
Proof.
  intros R Hne. unfold dispatch.
  destruct (document w !! id) as [el|] eqn:Hel; [|reflexivity].
  rewrite (ready_quiet _ R id el Hne Hel). reflexivity.
Qed.

Lemma overlays_clicked (w : World) : overlays (clicked 0 w) = overlays w.
Proof.
  unfold overlays, clicked. simpl. rewrite list_lookup_alter_eq.
  destruct (viewers w !! 0); reflexivity.
Qed.

Lemma ready_clicked (w : World) : Ready w -> Ready (clicked 0 w).
Proof.
  intros R. split.
  - apply (ready_button _ R).
  - apply (ready_quiet _ R).
  - destruct (ready_viewer _ R) as (ds & cam & Hv).
    exists ds, AtHome. simpl. rewrite Hv. reflexivity.
  - simpl. apply Forall_app. split; [apply (ready_loads _ R)|].
    constructor; [split; reflexivity|constructor].
  - simpl. rewrite (ready_issued _ R), length_app. simpl.
    rewrite Nat.add_1_r, List.seq_S, List.flat_map_app. reflexivity.
  - rewrite overlays_clicked, (ready_overlays _ R). simpl.
    rewrite fulfilled_app, fulfilled_cons. simpl.
    change (fulfilled []) with 0. lia.
  - rewrite overlays_clicked. simpl.
    eapply Forall_impl; [apply (ready_sources _ R)|].
    intros d [Hu Hs]. split; [exact Hu|].
    rewrite lookup_app_l; [exact Hs|].
    destruct (loads w !! ds_load d) eqn:E; [|discriminate].
    eapply lookup_lt_Some; eauto.
  - simpl. rewrite (ready_unhandled _ R), rejected_app, rejected_cons. simpl.
    change (rejected []) with 0. lia.
  - apply (ready_uncaught _ R).
Qed.

Lemma settle_other (w : World) (p : promise) (ok : bool) :
  (forall l, loads w !! p = Some l -> state l <> Pending) ->
  settle p ok w = w.
Proof.
  intros H. unfold settle.
  destruct (loads w !! p) as [l|]; [|reflexivity].
  specialize (H l eq_refl). destruct (state l); congruence.
Qed.

Lemma settle_fulfilled (w : World) (p : promise) (l : Load) :
  Ready w -> loads w !! p = Some l -> state l = Pending ->
  settle p true w =
    {| document := document w;
       viewers := alter (push_dataSource {| ds_load := p; ds_url := czml |}) 0 (viewers w);
       loads := alter (set_state Fulfilled) p (loads w);
       issued := issued w; unhandled := unhandled w; uncaught := uncaught w |}.
Proof.
  intros R Hl Hs. unfold settle. rewrite Hl, Hs.
  pose proof (ready_loads _ R) as Hf.
  rewrite Forall_lookup in Hf. destruct (Hf _ _ Hl) as [-> ->].
  reflexivity.
Qed.

Lemma settle_rejected (w : World) (p : promise) (l : Load) :
  Ready w -> loads w !! p = Some l -> state l = Pending ->
  settle p false w =
    {| document := document w;
       viewers := viewers w;
       loads := alter (set_state Rejected) p (loads w);
       issued := issued w;
       unhandled := unhandled w ++ [AddRejected (Added 0 p)];
       uncaught := uncaught w |}.
Proof.
  intros R Hl Hs. unfold settle. rewrite Hl, Hs.
  pose proof (ready_loads _ R) as Hf.
  rewrite Forall_lookup in Hf. destruct (Hf _ _ Hl) as [_ ->].
  reflexivity.
Qed.

Lemma alter_keeps (ls : list Load) (p : promise) (s : settled) :
  Forall (fun l => url l = czml /\ waiting l = [0]) ls ->
  Forall (fun l => url l = czml /\ waiting l = [0]) (alter (set_state s) p ls).
Proof.
  intros H. apply Forall_lookup. intros i x Hx.
  rewrite Forall_lookup in H.
  destruct (decide (p = i)) as [->|Hne].
  - rewrite list_lookup_alter_eq in Hx.
    destruct (ls !! i) as [y|] eqn:E; [|discriminate].
    injection Hx as <-. simpl. eauto.
  - rewrite list_lookup_alter_ne in Hx by exact Hne. eauto.
Qed.

Lemma sources_keep (ls : list Load) (p : promise) (l : Load) (s : settled)
    (ds : list DataSource) :
  ls !! p = Some l -> state l = Pending ->
  Forall (fun d => ds_url d = czml /\ state <$> ls !! ds_load d = Some Fulfilled) ds ->
  Forall (fun d => ds_url d = czml /\
            state <$> alter (set_state s) p ls !! ds_load d = Some Fulfilled) ds.
Proof.
  intros Hl Hs H. eapply Forall_impl; [exact H|].
  intros d [Hu Hd]. split; [exact Hu|].
  destruct (decide (p = ds_load d)) as [->|Hne].
  - rewrite Hl in Hd. simpl in Hd. congruence.
  - rewrite list_lookup_alter_ne by exact Hne. exact Hd.
Qed.

Lemma ready_settle (w : World) (p : promise) (ok : bool) :
  Ready w -> Ready (settle p ok w).
Proof.
  intros R.
  destruct (loads w !! p) as [l|] eqn:Hl;
    [|rewrite settle_other; [exact R|intros ? ?; congruence]].
  destruct (decide (state l = Pending)) as [Hs|Hs];
    [|rewrite settle_other; [exact R|intros ? ?; congruence]].
  destruct (ready_viewer _ R) as (ds & cam & Hv).
  pose proof (ready_overlays _ R) as Ho. pose proof (ready_sources _ R) as Hsrc.
  unfold overlays in Ho, Hsrc. rewrite Hv in Ho, Hsrc. simpl in Ho, Hsrc.
  destruct ok.
  - rewrite (settle_fulfilled _ _ _ R Hl Hs). split; simpl.
    + apply (ready_button _ R).
    + apply (ready_quiet _ R).
    + rewrite Hv. simpl. eexists _, _. reflexivity.
    + apply alter_keeps, (ready_loads _ R).
    + rewrite length_alter. apply (ready_issued _ R).
    + unfold overlays. simpl. rewrite Hv. simpl.
      destruct (settle_counts _ _ _ Fulfilled Hl Hs) as [-> _].
      rewrite length_app, Ho. simpl. reflexivity.
    + unfold overlays. simpl. rewrite Hv. simpl.
      apply Forall_app. split.
      * eapply sources_keep; eauto.
      * constructor; [|constructor]. simpl. split; [reflexivity|].
        rewrite list_lookup_alter_eq, Hl. reflexivity.
    + destruct (settle_counts _ _ _ Fulfilled Hl Hs) as [_ ->].
      rewrite (ready_unhandled _ R). simpl. lia.
    + apply (ready_uncaught _ R).
  - rewrite (settle_rejected _ _ _ R Hl Hs). split; simpl.
    + apply (ready_button _ R).
    + apply (ready_quiet _ R).
    + eauto.
    + apply alter_keeps, (ready_loads _ R).
    + rewrite length_alter. apply (ready_issued _ R).
    + unfold overlays. simpl. rewrite Hv. simpl.
      destruct (settle_counts _ _ _ Rejected Hl Hs) as [-> _].
      rewrite Ho. simpl. lia.
    + unfold overlays. simpl. rewrite Hv. simpl.
      eapply sources_keep; eauto.
    + destruct (settle_counts _ _ _ Rejected Hl Hs) as [_ ->].
      rewrite length_app, (ready_unhandled _ R). simpl. reflexivity.
    + apply (ready_uncaught _ R).
Qed.

Lemma ready_drag (w : World) (v : ViewerRef) (pose : nat) :
  Ready w -> Ready (step w (Drag v pose)).
Proof.
  intros R. destruct (ready_viewer _ R) as (ds & cam & Hv).
  assert (exists cam', alter (set_camera (Away pose)) v (viewers w)
                       = [the_viewer ds cam']) as [cam' Hv'].
  { rewrite Hv. destruct v; simpl; eauto. }
  pose proof (ready_overlays _ R) as Ho. pose proof (ready_sources _ R) as Hsrc.
  unfold overlays in Ho, Hsrc. rewrite Hv in Ho, Hsrc.
  split; simpl; try apply R.
  - eauto.
  - unfold overlays. simpl. rewrite Hv'. exact Ho.
  - unfold overlays. simpl. rewrite Hv'. exact Hsrc.
Qed.

Lemma ready_step (w : World) (e : event) :
  Ready w ->
  Ready (step w e) /\ length (loads (step w e)) = length (loads w) + clicks [e].
Proof.
  intros R. destruct e as [id|p ok|v pose].
  - unfold clicks. simpl. destruct (String.eqb_spec id button) as [->|Hne].
    + rewrite (dispatch_button _ R). split; [apply ready_clicked, R|].
      simpl. apply length_app.
    + rewrite (dispatch_other _ _ R Hne). split; [exact R|simpl; lia].
  - split; [apply ready_settle, R|]. unfold clicks. simpl.
    destruct (loads w !! p) as [l|] eqn:Hl;
      [|rewrite settle_other; [lia|intros ? ?; congruence]].
    destruct (decide (state l = Pending)) as [Hs|Hs];
      [|rewrite settle_other; [lia|intros ? ?; congruence]].
    destruct ok.
    + rewrite (settle_fulfilled _ _ _ R Hl Hs). simpl. rewrite length_alter. lia.
    + rewrite (settle_rejected _ _ _ R Hl Hs). simpl. rewrite length_alter. lia.
  - split; [apply ready_drag, R|]. unfold clicks. simpl. lia.
Qed.

Lemma session_snoc (evs : list event) (e : event) (ids : gset string) :
  session (evs ++ [e]) ids = step (session evs ids) e.
Proof. unfold session, run. rewrite foldl_app. reflexivity. Qed.

Lemma session_app (evs evs' : list event) (ids : gset string) :
  session (evs ++ evs') ids = run evs' (session evs ids).
Proof. unfold session, run. apply foldl_app. Qed.

Lemma ready_session (ids : gset string) (evs : list event) :
  "cesiumContainer" ∈ ids -> button ∈ ids ->
  Ready (session evs ids) /\ length (loads (session evs ids)) = clicks evs.
Proof.
  intros Hc Hb. induction evs as [|e evs [R Hn]] using rev_ind.
  - split; [apply ready_boot; assumption|].
    unfold session. simpl. rewrite (boot_page _ Hc Hb). reflexivity.
  - rewrite session_snoc, clicks_app.
    destruct (ready_step _ e R) as [R' Hn']. split; [exact R'|]. lia.
Qed.

(** ** Running programs *)

Lemma exec_perform {X : Type} (c : call X) (w : World) :
  exec (perform c) w = engine c w.
Proof.
  unfold perform. simpl. destruct (engine c w) as [w' [e|x]]; reflexivity.
Qed.

Lemma exec_pbind {A B : Type} (p : prog A) (f : A -> prog B) (w : World) :
  exec (pbind p f) w =
    match exec p w with
    | (w', inr a) => exec (f a) w'
    | (w', inl e) => (w', inl e)
    end.
Proof.
  revert w. induction p as [a|e|X c k IH]; intros w; simpl; try reflexivity.
  destruct (engine c w) as [w' [e|x]]; [reflexivity|]. apply IH.
Qed.

Lemma exec_throws {A B : Type} (p : prog A) (f : A -> prog B) (w w' : World)
    (e : error) :
  exec p w = (w', inl e) -> exec (pbind p f) w = (w', inl e).
Proof. intros H. rewrite exec_pbind, H. reflexivity. Qed.

Lemma exec_script_no_container (w : World) :
  document w !! "cesiumContainer" = None ->
  exec script w =
    (note (CNewViewer "cesiumContainer" viewer_options) w,
     inl (DeveloperError "cesiumContainer")).
Proof.
  intros Hc. unfold script. apply exec_throws. rewrite exec_perform.
  simpl. rewrite Hc. reflexivity.
Qed.

Lemma exec_script_no_button (w : World) (c : Element) :
  document w !! "cesiumContainer" = Some c ->
  document w !! button = None ->
  exec script w =
    ({| document := document w;
        viewers :=
          viewers w ++
            [set_creditDisplay "none" (fresh_viewer "cesiumContainer" viewer_options)];
        loads := loads w;
        issued :=
          issued w ++
            [ CNewViewer "cesiumContainer" viewer_options;
              CSetCreditDisplay (length (viewers w)) "none";
              CGetElementById button ];
        unhandled := unhandled w;
        uncaught := uncaught w |}, inl TypeError).
Proof.
  intros Hc Hb. destruct w as [doc vs ls cs un uc]. unfold button in *.
  simpl in *. rewrite Hc. simpl.
  rewrite (list_lookup_middle vs [] _ (length vs) eq_refl). simpl.
  rewrite Hb. simpl. world_simpl. rewrite alter_snoc.
  rewrite <- !app_assoc. reflexivity.
Qed.

(** ** What is issued only grows, with fixed names *)

Lemma grows_refl (w : World) : grows w w.
Proof. exists []. rewrite app_nil_r. split; [reflexivity|constructor]. Qed.

Lemma grows_trans (a b c : World) : grows a b -> grows b c -> grows a c.
Proof.
  intros (k & Hk & Fk) (k' & Hk' & Fk'). exists (k ++ k').
  rewrite Hk', Hk, <- app_assoc. split; [reflexivity|].
  apply Forall_app. split; assumption.
Qed.

Lemma grows_handler (v : ViewerRef) (w : World) :
  grows w (job (clickHandler v) w).
Proof.
  unfold job. destruct (viewers w !! v) as [vw|] eqn:Hv.
  - rewrite exec_clickHandler by eauto.
    exists (click_issued v (length (loads w))). split; [reflexivity|].
    repeat constructor.
  - destruct w as [doc vs ls cs un uc]. simpl in Hv. simpl. rewrite Hv. simpl.
    exists [CLoad czml; CAdd v (length ls)]. simpl. rewrite <- app_assoc.
    split; [reflexivity|]. repeat constructor.
Qed.

Lemma grows_dispatch (id type : string) (w : World) : grows w (dispatch id type w).
Proof.
  unfold dispatch. destruct (document w !! id) as [el|]; [|apply grows_refl].
  generalize (listeners el) as fs. intros fs. revert w.
  induction fs as [|[t f] fs IH]; intros w; simpl; [apply grows_refl|].
  destruct (String.eqb t type); [|apply IH].
  eapply grows_trans; [|apply IH]. destruct f as [v]. apply grows_handler.
Qed.

Lemma issued_overlays (d : DataSource) (vs : list ViewerRef) (w : World) :
  issued (foldl (append_overlay d) w vs) = issued w.
Proof.
  revert w. induction vs as [|v vs IH]; intros w; simpl; [reflexivity|].
  rewrite IH. reflexivity.
Qed.

Lemma issued_rejections (p : promise) (vs : list ViewerRef) (w : World) :
  issued (foldl (fun w v => reject (AddRejected (Added v p)) w) w vs) = issued w.
Proof.
  revert w. induction vs as [|v vs IH]; intros w; simpl; [reflexivity|].
  rewrite IH. reflexivity.
Qed.

Lemma issued_settle (p : promise) (ok : bool) (w : World) :
  issued (settle p ok w) = issued w.
Proof.
  unfold settle. destruct (loads w !! p) as [l|]; [|reflexivity].
  destruct (state l); try reflexivity. destruct ok.
  - rewrite issued_overlays. reflexivity.
  - rewrite issued_rejections. destruct (waiting l); reflexivity.
Qed.

Lemma grows_step (w : World) (e : event) : grows w (step w e).
Proof.
  destruct e as [id|p ok|v pose]; simpl.
  - apply grows_dispatch.
  - exists []. rewrite issued_settle, app_nil_r. split; [reflexivity|constructor].
  - exists []. simpl. rewrite app_nil_r. split; [reflexivity|constructor].
Qed.

Lemma grows_run (evs : list event) (w : World) : grows w (run evs w).
Proof.
  revert w. induction evs as [|e evs IH]; intros w; simpl; [apply grows_refl|].
  eapply grows_trans; [apply grows_step|apply IH].
Qed.

Lemma issued_boot (w : World) :
  exists k,
    issued (boot w) = issued w ++ CNewViewer "cesiumContainer" viewer_options :: k /\
    Forall fixed_names k.
Proof.
  unfold boot, job.
  destruct (document w !! "cesiumContainer") as [c|] eqn:Hc.
  - destruct (document w !! button) as [b|] eqn:Hb.
    + rewrite (exec_script _ _ _ Hc Hb). simpl. eexists. split; [reflexivity|].
      repeat constructor.
    + rewrite (exec_script_no_button _ _ Hc Hb). simpl. eexists.
      split; [reflexivity|]. repeat constructor.
  - rewrite (exec_script_no_container _ Hc). simpl. exists [].
    split; [reflexivity|constructor].
Qed.

(** ** The page whose container is missing *)

Lemma boot_stuck (ids : gset string) :
  "cesiumContainer" ∉ ids -> boot (page ids) = stuck ids.
Proof.
  intros Hc. unfold boot, job. rewrite exec_script_no_container; [reflexivity|].
  simpl. apply lookup_gset_to_gmap_None. exact Hc.
Qed.

Lemma step_stuck (ids : gset string) (e : event) : step (stuck ids) e = stuck ids.
Proof.
  destruct e as [id|p ok|v pose]; simpl.
  - unfold dispatch. simpl.
    destruct (gset_to_gmap _ ids !! id) as [el|] eqn:Hel; [|reflexivity].
    apply lookup_gset_to_gmap_Some in Hel as [_ <-]. reflexivity.
  - reflexivity.
  - reflexivity.
Qed.

Lemma run_stuck (ids : gset string) (evs : list event) :
  run evs (stuck ids) = stuck ids.
Proof.
  induction evs as [|e evs IH]; simpl; [reflexivity|].
  rewrite step_stuck. exact IH.
Qed.

(** ** Overlays are only appended *)

Lemma step_appends (w : World) (e : event) :
  Ready w -> exists extra, overlays (step w e) = overlays w ++ extra.
Proof.
  intros R. destruct (ready_viewer _ R) as (ds & cam & Hv).
  destruct e as [id|p ok|v pose]; simpl.
  - destruct (String.eqb_spec id button) as [->|Hne].
    + rewrite (dispatch_button _ R), overlays_clicked.
      exists []. rewrite app_nil_r. reflexivity.
    + rewrite (dispatch_other _ _ R Hne). exists []. rewrite app_nil_r. reflexivity.
  - destruct (loads w !! p) as [l|] eqn:Hl;
      [|rewrite settle_other; [|intros ? ?; congruence];
        exists []; rewrite app_nil_r; reflexivity].
    destruct (decide (state l = Pending)) as [Hs|Hs];
      [|rewrite settle_other; [|intros ? ?; congruence];
        exists []; rewrite app_nil_r; reflexivity].
    destruct ok.
    + rewrite (settle_fulfilled _ _ _ R Hl Hs). unfold overlays. simpl.
      rewrite Hv. simpl. eauto.
    + rewrite (settle_rejected _ _ _ R Hl Hs). unfold overlays. simpl.
      exists []. rewrite app_nil_r. reflexivity.
  - unfold overlays. simpl. rewrite Hv.
    exists []. rewrite app_nil_r. destruct v; reflexivity.
Qed.

Lemma run_appends (evs : list event) (w : World) :
  Ready w -> exists extra, overlays (run evs w) = overlays w ++ extra.
Proof.
  revert w. induction evs as [|e evs IH]; intros w R; simpl.
  - exists []. rewrite app_nil_r. reflexivity.
  - destruct (step_appends w e R) as [x Hx].
    destruct (IH (step w e) (proj1 (ready_step w e R))) as [y Hy].
    exists (x ++ y). rewrite Hy, Hx, <- app_assoc. reflexivity.
Qed.

(** ** One overlay per fulfilled load *)

Lemma overlay_of_pending (w : World) (p : promise) (l : Load) :
  Ready w -> loads w !! p = Some l -> state l = Pending ->
  p ∉ ds_load <$> overlays w.
Proof.
  intros R Hl Hs Hin. apply list_elem_of_fmap in Hin as (d & -> & Hd).
  pose proof (ready_sources _ R) as Hf. rewrite Forall_forall in Hf.
  destruct (Hf d Hd) as [_ Hst]. rewrite Hl in Hst. simpl in Hst. congruence.
Qed.

Lemma exact_step (w : World) (e : event) :
  Ready w -> exact_overlays w -> exact_overlays (step w e).
Proof.
  intros R [Hnd Hall]. destruct (ready_viewer _ R) as (ds & cam & Hv).
  destruct e as [id|p ok|v pose]; simpl.
  - destruct (decide (id = button)) as [->|Hne];
      [|rewrite (dispatch_other _ _ R Hne); split; assumption].
    rewrite (dispatch_button _ R). split; rewrite overlays_clicked; [exact Hnd|].
    intros i Hi. apply Hall. simpl in Hi.
    destruct (decide (i < length (loads w))) as [Hlt|Hge].
    + rewrite lookup_app_l in Hi by exact Hlt. exact Hi.
    + rewrite lookup_app_r in Hi by lia.
      destruct (i - length (loads w)) as [|n]; simpl in Hi; discriminate.
  - destruct (loads w !! p) as [l|] eqn:Hl;
      [|rewrite settle_other; [split; assumption|intros ? ?; congruence]].
    destruct (decide (state l = Pending)) as [Hs|Hs];
      [|rewrite settle_other; [split; assumption|intros ? ?; congruence]].
    pose proof (overlay_of_pending _ _ _ R Hl Hs) as Hp.
    unfold overlays in Hnd, Hall, Hp. rewrite Hv in Hnd, Hall, Hp.
    simpl in Hnd, Hall, Hp.
    destruct ok.
    + rewrite (settle_fulfilled _ _ _ R Hl Hs). unfold exact_overlays, overlays.
      simpl. rewrite Hv. simpl. rewrite fmap_app. simpl. split.
      * apply NoDup_app. split; [exact Hnd|]. split.
        -- intros x Hx Hx'. apply list_elem_of_singleton in Hx'. subst x.
           contradiction.
        -- apply NoDup_singleton.
      * intros i Hi. apply elem_of_app.
        destruct (decide (p = i)) as [->|Hne].
        -- right. apply list_elem_of_singleton. reflexivity.
        -- left. apply Hall. rewrite list_lookup_alter_ne in Hi by exact Hne.
           exact Hi.
    + rewrite (settle_rejected _ _ _ R Hl Hs). unfold exact_overlays, overlays.
      simpl. rewrite Hv. simpl. split; [exact Hnd|].
      intros i Hi. apply Hall.
      destruct (decide (p = i)) as [->|Hne].
      * rewrite list_lookup_alter_eq, Hl in Hi. simpl in Hi. discriminate.
      * rewrite list_lookup_alter_ne in Hi by exact Hne. exact Hi.
  - unfold exact_overlays, overlays in *. simpl. rewrite Hv in *.
    destruct v; simpl in *; split; assumption.
Qed.

Lemma exact_session (ids : gset string) (evs : list event) :
  "cesiumContainer" ∈ ids -> button ∈ ids -> exact_overlays (session evs ids).
Proof.
  intros Hc Hb. induction evs as [|e evs IH] using rev_ind.
  - unfold session. simpl. rewrite (boot_page _ Hc Hb).
    split; [apply NoDup_nil_2|]. intros i Hi. simpl in Hi. discriminate.
  - rewrite session_snoc. apply exact_step; [|exact IH].
    apply (ready_session ids evs Hc Hb).
Qed.

(** ** Overlays and fulfilled loads *)

Lemma overlays_when_fulfilled (ids : gset string) (evs : list event) :
  "cesiumContainer" ∈ ids -> button ∈ ids ->
  (all_fulfilled (session evs ids) ->
   length (overlays (session evs ids)) = clicks evs) /\
  length (overlays (session evs ids)) = fulfilled (loads (session evs ids)).
Proof.
  intros Hc Hb. destruct (ready_session ids evs Hc Hb) as [R Hn].
  split; [|apply (ready_overlays _ R)].
  intros Hf. rewrite (ready_overlays _ R), <- Hn. apply all_fulfilled_count, Hf.
Qed.

(** ** The claims *)

(** C1, as it is stated, fails: one click whose load is rejected leaves
    the overlay collection empty once every load has settled, although
    one load-request and one camera-reset were issued. *)
Lemma C1_rejected_load_leaves_no_overlay :
  let evs := [Click button; Settle 0 false] in
  let w := session evs {[ "cesiumContainer"; button ]} in
  clicks evs = 1 /\ all_settled w /\
  load_requests (issued w) = [czml] /\
  camera_resets (issued w) = [(0, 0%Z)] /\
  length (overlays w) <> 1.
Proof.
  cbv zeta. split; [reflexivity|]. split.
  - unfold all_settled.
    replace (loads _) with [{| url := czml; state := Rejected; waiting := [0] |}]
      by (vm_compute; reflexivity).
    repeat constructor. discriminate.
  - split; [vm_compute; reflexivity|]. split; [vm_compute; reflexivity|].
    vm_compute. discriminate.
Qed.

(** C1 (amended): on a page that has the container and the button, after
    any events with N clicks on the button the script has issued exactly
    N load-requests, all for the trajectory file, and exactly N camera
    resets; the overlay collection holds one overlay per load that was
    fulfilled, so its length is N once every load has been fulfilled. *)
Theorem C1_clicks_loads_resets_overlays (ids : gset string) (evs : list event) :
  "cesiumContainer" ∈ ids -> button ∈ ids ->
  let w := session evs ids in
  load_requests (issued w) = repeat czml (clicks evs) /\
  camera_resets (issued w) = repeat (0, 0%Z) (clicks evs) /\
  length (loads w) = clicks evs /\
  length (overlays w) = fulfilled (loads w) /\
  (all_fulfilled w -> length (overlays w) = clicks evs).
Proof.
  intros Hc Hb w. destruct (ready_session ids evs Hc Hb) as [R Hn].
  fold w in R, Hn. rewrite <- Hn.
  split; [|split; [|split; [|split]]].
  - rewrite (ready_issued _ R), load_requests_app, load_requests_clicks.
    reflexivity.
  - rewrite (ready_issued _ R), camera_resets_app, camera_resets_clicks.
    reflexivity.
  - reflexivity.
  - apply (ready_overlays _ R).
  - intros Hf. rewrite (ready_overlays _ R). apply all_fulfilled_count, Hf.
Qed.

Lemma C1_two_clicks_two_overlays :
  length (overlays (session [Click button; Click button; Settle 1 true; Settle 0 true]
                            {[ "cesiumContainer"; button ]})) = 2.
Proof.
  refine (proj2 (proj2 (proj2 (proj2
    (C1_clicks_loads_resets_overlays {[ "cesiumContainer"; button ]}
       [Click button; Click button; Settle 1 true; Settle 0 true] _ _)))) _).
  - vm_compute. reflexivity.
  - vm_compute. reflexivity.
  - unfold all_fulfilled.
    replace (loads _) with [{| url := czml; state := Fulfilled; waiting := [0] |};
                            {| url := czml; state := Fulfilled; waiting := [0] |}]
      by (vm_compute; reflexivity).
    repeat constructor.
Defined.

(** C2: on a started page, whatever happened before, one click on the
    button makes the listener issue a camera reset to the home view with
    duration zero; when the listener has returned the camera is at the
    home view while the load it has just requested is still pending. *)
Theorem C2_click_resets_camera_without_waiting
    (ids : gset string) (evs : list event) :
  "cesiumContainer" ∈ ids -> button ∈ ids ->
  let w := session evs ids in
  let w' := step w (Click button) in
  exec (clickHandler 0) w = (w', inr tt) /\
  issued w' = issued w ++ [CLoad czml; CAdd 0 (length (loads w)); CFlyHome 0 0] /\
  camera_resets (click_issued 0 (length (loads w))) = [(0, 0%Z)] /\
  (exists ds, viewers w' = [the_viewer ds AtHome]) /\
  loads w' !! length (loads w)
    = Some {| url := czml; state := Pending; waiting := [0] |} /\
  overlays w' = overlays w.
Proof.
  intros Hc Hb w w'. destruct (ready_session ids evs Hc Hb) as [R _].
  fold w in R. subst w'. simpl. rewrite (dispatch_button _ R).
  destruct (ready_viewer _ R) as (ds & cam & Hv).
  split; [|split; [|split; [|split; [|split]]]].
  - apply exec_clickHandler. rewrite Hv. simpl. eauto.
  - reflexivity.
  - reflexivity.
  - exists ds. simpl. rewrite Hv. reflexivity.
  - simpl. apply list_lookup_middle. reflexivity.
  - apply overlays_clicked.
Qed.

Lemma C2_first_click_after_drag :
  let w := session [Drag 0 7] {[ "cesiumContainer"; button ]} in
  (exists ds, viewers (step w (Click button)) = [the_viewer ds AtHome]) /\
  loads (step w (Click button)) !! length (loads w)
    = Some {| url := czml; state := Pending; waiting := [0] |}.
Proof.
  cbv zeta.
  pose proof (C2_click_resets_camera_without_waiting
                {[ "cesiumContainer"; button ]} [Drag 0 7]) as H.
  cbv zeta in H.
  destruct H as (_ & _ & _ & Hcam & Hload & _).
  - vm_compute. reflexivity.
  - vm_compute. reflexivity.
  - split; [exact Hcam|exact Hload].
Defined.

(** C3: the session is constructed with the container and exactly the
    option object of the script: ten options, the nine UI toggles off
    (eight [false], [creditContainer] null) and [shouldAnimate] on.  At
    the end of the start the session holds these options, each of the
    nine UI features reads hidden and the clock animates. *)
Theorem C3_session_configuration (ids : gset string) :
  "cesiumContainer" ∈ ids -> button ∈ ids ->
  head (issued (boot (page ids)))
    = Some (CNewViewer "cesiumContainer" viewer_options) /\
  dom viewer_options = list_to_set ("shouldAnimate" :: toggles) /\
  Forall (fun f => viewer_options !! f
                   = Some (if String.eqb f "creditContainer"
                           then VNull else VBool false)) toggles /\
  viewer_options !! "shouldAnimate" = Some (VBool true) /\
  exists v,
    viewers (boot (page ids)) = [v] /\
    options v = viewer_options /\
    Forall (fun f => shown f v = false) toggles /\
    animates v = true.
Proof.
  intros Hc Hb. rewrite (boot_page _ Hc Hb). simpl.
  split; [reflexivity|]. split; [vm_compute; reflexivity|].
  split; [repeat constructor|]. split; [reflexivity|].
  exists (the_viewer [] AtHome).
  split; [reflexivity|]. split; [reflexivity|].
  split; [repeat constructor|reflexivity].
Qed.

Lemma C3_page_with_both_elements :
  exists v,
    viewers (boot (page {[ "cesiumContainer"; button ]})) = [v] /\
    options v = viewer_options /\
    Forall (fun f => shown f v = false) toggles /\
    animates v = true.
Proof.
  refine (proj2 (proj2 (proj2 (proj2
    (C3_session_configuration {[ "cesiumContainer"; button ]} _ _))))).
  - vm_compute. reflexivity.
  - vm_compute. reflexivity.
Defined.

(** C4: at the end of the start, and from then on, the display style of
    the credit element is "none".  It is so by the assignment of the
    script, issued right after the construction: the assignment sets
    "none" on a session whatever options it was constructed with and
    whatever the style was before. *)
Theorem C4_credit_display_none :
  (forall (ids : gset string) (evs : list event),
     "cesiumContainer" ∈ ids -> button ∈ ids ->
     exists v, viewers (session evs ids) = [v] /\ creditDisplay v = "none") /\
  (forall ids : gset string,
     "cesiumContainer" ∈ ids -> button ∈ ids ->
     exists rest,
       issued (boot (page ids))
       = CNewViewer "cesiumContainer" viewer_options
           :: CSetCreditDisplay 0 "none" :: rest) /\
  (forall (w : World) (v : ViewerRef) (vw : Viewer),
     viewers w !! v = Some vw ->
     exists w',
       exec (perform (SetCreditDisplay v "none")) w = (w', inr tt) /\
       viewers w' !! v = Some (set_creditDisplay "none" vw) /\
       creditDisplay (set_creditDisplay "none" vw) = "none" /\
       options (set_creditDisplay "none" vw) = options vw).
Proof.
  split; [|split].
  - intros ids evs Hc Hb. destruct (ready_session ids evs Hc Hb) as [R _].
    destruct (ready_viewer _ R) as (ds & cam & Hv).
    exists (the_viewer ds cam). split; [exact Hv|reflexivity].
  - intros ids Hc Hb. rewrite (boot_page _ Hc Hb). simpl. eauto.
  - intros w v vw Hv. rewrite exec_perform. simpl. rewrite Hv.
    eexists. split; [reflexivity|]. simpl.
    rewrite list_lookup_alter_eq, Hv. auto.
Qed.

Lemma C4_credit_hidden_after_start :
  exists v,
    viewers (session [] {[ "cesiumContainer"; button ]}) = [v] /\
    creditDisplay v = "none".
Proof.
  refine (proj1 C4_credit_display_none {[ "cesiumContainer"; button ]} [] _ _).
  - vm_compute. reflexivity.
  - vm_compute. reflexivity.
Defined.

(** C5: on every page and after any events, each viewer construction the
    script has issued names the container "cesiumContainer", each element
    lookup and each listener registration names "satellitesButton", and
    each load-request names "../czml_data/simple.czml"; the construction
    is always issued first.  On a page that has both elements nothing
    else is issued than the four commands of the start and, per click,
    the load-request, the append and the camera reset. *)
Theorem C5_fixed_identifiers :
  (forall (ids : gset string) (evs : list event),
     Forall fixed_names (issued (session evs ids)) /\
     head (issued (session evs ids))
       = Some (CNewViewer "cesiumContainer" viewer_options)) /\
  (forall (ids : gset string) (evs : list event),
     "cesiumContainer" ∈ ids -> "satellitesButton" ∈ ids ->
     issued (session evs ids)
       = boot_issued ++ flat_map (click_issued 0) (seq 0 (clicks evs)) /\
     load_requests (issued (session evs ids))
       = repeat "../czml_data/simple.czml" (clicks evs)).
Proof.
  split.
  - intros ids evs. unfold session.
    destruct (issued_boot (page ids)) as (k & Hk & Fk). simpl in Hk.
    destruct (grows_run evs (boot (page ids))) as (k' & Hk' & Fk').
    rewrite Hk', Hk. split; [|reflexivity].
    apply Forall_app. split; [|exact Fk'].
    constructor; [reflexivity|exact Fk].
  - intros ids evs Hc Hb. destruct (ready_session ids evs Hc Hb) as [R Hn].
    rewrite (ready_issued _ R), Hn. split; [reflexivity|].
    rewrite load_requests_app, load_requests_clicks. reflexivity.
Qed.

Lemma C5_names_after_two_clicks :
  issued (session [Click button; Click button] {[ "cesiumContainer"; button ]})
    = boot_issued ++ click_issued 0 0 ++ click_issued 0 1.
Proof.
  refine (proj1 (proj2 C5_fixed_identifiers {[ "cesiumContainer"; button ]}
                   [Click button; Click button] _ _)).
  - vm_compute. reflexivity.
  - vm_compute. reflexivity.
Defined.

(** C6: on a started page, when the load a click has requested fails, the
    listener has returned normally, nothing is reported as uncaught, the
    session is still there with the overlays it had, the page stays
    ready for further clicks, the rejection is left unhandled and no
    command is issued in reaction to it.  At any time no overlay stems
    from a load that was rejected. *)
Theorem C6_failed_load_is_silent (ids : gset string) (evs : list event) :
  "cesiumContainer" ∈ ids -> button ∈ ids ->
  let w := session evs ids in
  let p := length (loads w) in
  let w1 := step w (Click button) in
  let w2 := step w1 (Settle p false) in
  exec (apply_closure (SatellitesClick 0)) w = (w1, inr tt) /\
  uncaught w1 = [] /\ uncaught w2 = [] /\
  overlays w2 = overlays w /\
  (exists ds cam, viewers w2 = [the_viewer ds cam]) /\
  unhandled w2 = unhandled w ++ [AddRejected (Added 0 p)] /\
  issued w2 = issued w1 /\
  Ready w2 /\
  (forall q, state <$> loads w !! q = Some Rejected ->
             Forall (fun d => ds_load d <> q) (overlays w)).
Proof.
  intros Hc Hb w p w1 w2. destruct (ready_session ids evs Hc Hb) as [R _].
  fold w in R.
  assert (Hw1 : w1 = clicked 0 w) by apply (dispatch_button _ R).
  assert (R1 : Ready w1) by (rewrite Hw1; apply ready_clicked, R).
  assert (Hl : loads w1 !! p
               = Some {| url := czml; state := Pending; waiting := [0] |}).
  { rewrite Hw1. simpl. apply list_lookup_middle. reflexivity. }
  assert (Hw2 : w2 = _) by apply (settle_rejected _ _ _ R1 Hl eq_refl).
  assert (R2 : Ready w2) by apply ready_settle, R1.
  destruct (ready_viewer _ R) as (ds & cam & Hv).
  split; [|split; [|split; [|split; [|split; [|split; [|split; [|split]]]]]]].
  - rewrite Hw1. apply exec_clickHandler. rewrite Hv. simpl. eauto.
  - apply (ready_uncaught _ R1).
  - apply (ready_uncaught _ R2).
  - rewrite Hw2. unfold overlays at 1. simpl. fold (overlays w1).
    rewrite Hw1. apply overlays_clicked.
  - apply (ready_viewer _ R2).
  - rewrite Hw2. simpl. rewrite Hw1. reflexivity.
  - apply issued_settle.
  - exact R2.
  - intros q Hq. eapply Forall_impl; [apply (ready_sources _ R)|].
    intros d [_ Hd] E. rewrite E in Hd. congruence.
Qed.

Lemma C6_first_load_fails :
  let w2 := session [Click button; Settle 0 false] {[ "cesiumContainer"; button ]} in
  uncaught w2 = [] /\ overlays w2 = [] /\
  unhandled w2 = [AddRejected (Added 0 0)].
Proof.
  cbv zeta.
  pose proof (C6_failed_load_is_silent {[ "cesiumContainer"; button ]} []) as H.
  cbv zeta in H.
  destruct H as (_ & _ & Hu & Ho & _ & Hr & _).
  - vm_compute. reflexivity.
  - vm_compute. reflexivity.
  - split; [exact Hu|]. split; [exact Ho|exact Hr].
Defined.

Lemma clicks_repeat (k : nat) : clicks (repeat (Click button) k) = k.
Proof.
  induction k as [|k IH]; [reflexivity|].
  change (repeat (Click button) (S k)) with ([Click button] ++ repeat (Click button) k).
  rewrite clicks_app, IH. reflexivity.
Qed.

(** C7, as it is stated, fails in its second half: a repeated click
    whose load is rejected adds no overlay.  After two clicks whose loads
    were both rejected the overlay collection is the one a single such
    click leaves, and it is empty. *)
Lemma C7_rejected_clicks_add_no_overlay :
  let ids : gset string := {[ "cesiumContainer"; button ]} in
  let w2 := session [Click button; Click button; Settle 0 false; Settle 1 false] ids in
  let w1 := session [Click button; Settle 0 false] ids in
  all_settled w2 /\ all_settled w1 /\
  overlays w2 = overlays w1 /\ length (overlays w2) = 0.
Proof.
  cbv zeta. split; [|split; [|split]].
  - unfold all_settled.
    replace (loads _) with [{| url := czml; state := Rejected; waiting := [0] |};
                            {| url := czml; state := Rejected; waiting := [0] |}]
      by (vm_compute; reflexivity).
    repeat constructor; discriminate.
  - unfold all_settled.
    replace (loads _) with [{| url := czml; state := Rejected; waiting := [0] |}]
      by (vm_compute; reflexivity).
    repeat constructor; discriminate.
  - vm_compute. reflexivity.
  - vm_compute. reflexivity.
Qed.

(** C7 (amended): the click is not idempotent.  On a started page, for
    every k >= 2, clicking k times leaves another world than clicking
    once: k further load-requests have been issued instead of one.
    Whatever events follow, each of the k clicks whose load has been
    fulfilled has its own overlay in the collection, all read from the
    same file and none merged with another, and a click whose load is
    pending or was rejected has none; the collection holds as many
    overlays as loads have been fulfilled. *)
Theorem C7_click_not_idempotent (ids : gset string) (evs : list event) (k : nat) :
  "cesiumContainer" ∈ ids -> button ∈ ids -> 2 <= k ->
  let w := session evs ids in
  let n := length (loads w) in
  let wk := run (repeat (Click button) k) w in
  let w1 := run [Click button] w in
  wk <> w1 /\
  length (loads wk) = n + k /\
  length (loads w1) = n + 1 /\
  load_requests (issued wk) = repeat czml (clicks evs + k) /\
  load_requests (issued w1) = repeat czml (clicks evs + 1) /\
  (forall later : list event,
     let w' := run later wk in
     NoDup (ds_load <$> overlays w') /\
     Forall (fun d => ds_url d = czml) (overlays w') /\
     length (overlays w') = fulfilled (loads w') /\
     (forall i, i < k ->
        (exists l, loads w' !! (n + i) = Some l /\ url l = czml) /\
        ((n + i) ∈ ds_load <$> overlays w' <->
         state <$> loads w' !! (n + i) = Some Fulfilled))).
Proof.
  intros Hc Hb Hk w n wk w1.
  destruct (ready_session ids evs Hc Hb) as [_ Hn]. fold w in Hn. fold n in Hn.
  assert (Hwk : wk = session (evs ++ repeat (Click button) k) ids)
    by (symmetry; apply session_app).
  assert (Hw1 : w1 = session (evs ++ [Click button]) ids)
    by (symmetry; apply session_app).
  destruct (ready_session ids (evs ++ repeat (Click button) k) Hc Hb) as [Rk Hlk].
  destruct (ready_session ids (evs ++ [Click button]) Hc Hb) as [R1 Hl1].
  rewrite clicks_app, clicks_repeat in Hlk. rewrite clicks_app in Hl1.
  change (clicks [Click button]) with 1 in Hl1.
  rewrite <- Hwk in Rk, Hlk. rewrite <- Hw1 in R1, Hl1.
  assert (Hnk : length (loads wk) = n + k) by lia.
  assert (Hn1 : length (loads w1) = n + 1) by lia.
  split; [|split; [exact Hnk|split; [exact Hn1|split; [|split]]]].
  - intros E. rewrite E in Hnk. lia.
  - rewrite (ready_issued _ Rk), load_requests_app, load_requests_clicks, Hlk.
    reflexivity.
  - rewrite (ready_issued _ R1), load_requests_app, load_requests_clicks, Hl1.
    reflexivity.
  - intros later w'.
    assert (Hw' : w' = session ((evs ++ repeat (Click button) k) ++ later) ids)
      by (unfold w'; rewrite Hwk; symmetry; apply session_app).
    destruct (ready_session ids ((evs ++ repeat (Click button) k) ++ later) Hc Hb)
      as [R' Hl'].
    destruct (exact_session ids ((evs ++ repeat (Click button) k) ++ later) Hc Hb)
      as [Hnd Hall].
    rewrite !clicks_app, clicks_repeat in Hl'.
    rewrite <- Hw' in R', Hl', Hnd, Hall.
    pose proof (ready_sources _ R') as Hsrc.
    split; [exact Hnd|]. split.
    { eapply Forall_impl; [exact Hsrc|]. intros d [Hu _]. exact Hu. }
    split; [apply (ready_overlays _ R')|].
    intros i Hi. split.
    + destruct (lookup_lt_is_Some_2 (loads w') (n + i)) as [l Hl]; [lia|].
      exists l. split; [exact Hl|].
      pose proof (ready_loads _ R') as Hf. rewrite Forall_lookup in Hf.
      apply (Hf _ _ Hl).
    + split; [|apply Hall].
      intros Hin. apply list_elem_of_fmap in Hin as (d & -> & Hd).
      rewrite Forall_forall in Hsrc. apply (Hsrc d Hd).
Qed.

Lemma C7_two_clicks_differ_from_one :
  let w := session [] {[ "cesiumContainer"; button ]} in
  let w' := run [Settle 1 true; Settle 0 false] (run [Click button; Click button] w) in
  run [Click button; Click button] w <> run [Click button] w /\
  1 ∈ ds_load <$> overlays w' /\
  length (overlays w') = fulfilled (loads w').
Proof.
  cbv zeta.
  pose proof (C7_click_not_idempotent {[ "cesiumContainer"; button ]} [] 2) as H.
  cbv zeta in H.
  destruct H as (Hne & _ & _ & _ & _ & Hov).
  - vm_compute. reflexivity.
  - vm_compute. reflexivity.
  - lia.
  - destruct (Hov [Settle 1 true; Settle 0 false]) as (_ & _ & Hlen & Hper).
    split; [exact Hne|]. split; [|exact Hlen].
    destruct (Hper 1) as [_ Hiff]; [lia|].
    apply Hiff. vm_compute. reflexivity.
Defined.

(** C8: on a started page, whatever events follow, the session keeps its
    container, its options and its credit style, and its overlay
    collection is the one it was with further overlays appended: nothing
    is cleared or removed.  The listener, on any world, changes of the
    session only the camera and leaves every other session and the page
    alone; the assignment of the start changes only the credit style. *)
Theorem C8_only_appends_overlays :
  (forall (ids : gset string) (evs evs' : list event),
     "cesiumContainer" ∈ ids -> button ∈ ids ->
     exists ds cam extra cam',
       viewers (session evs ids) = [the_viewer ds cam] /\
       viewers (session (evs ++ evs') ids) = [the_viewer (ds ++ extra) cam']) /\
  (forall (w : World) (v : ViewerRef) (vw : Viewer),
     viewers w !! v = Some vw ->
     let w' := job (clickHandler v) w in
     viewers w' !! v = Some (set_camera AtHome vw) /\
     dataSources (set_camera AtHome vw) = dataSources vw /\
     options (set_camera AtHome vw) = options vw /\
     container (set_camera AtHome vw) = container vw /\
     creditDisplay (set_camera AtHome vw) = creditDisplay vw /\
     (forall v', v' <> v -> viewers w' !! v' = viewers w !! v') /\
     document w' = document w /\
     unhandled w' = unhandled w /\ uncaught w' = uncaught w) /\
  (forall (w : World) (v : ViewerRef) (vw : Viewer) (s : string),
     viewers w !! v = Some vw ->
     let w' := fst (exec (perform (SetCreditDisplay v s)) w) in
     viewers w' !! v = Some (set_creditDisplay s vw) /\
     dataSources (set_creditDisplay s vw) = dataSources vw /\
     options (set_creditDisplay s vw) = options vw /\
     container (set_creditDisplay s vw) = container vw /\
     camera (set_creditDisplay s vw) = camera vw /\
     (forall v', v' <> v -> viewers w' !! v' = viewers w !! v') /\
     document w' = document w /\ loads w' = loads w).
Proof.
  split; [|split].
  - intros ids evs evs' Hc Hb.
    destruct (ready_session ids evs Hc Hb) as [R _].
    destruct (ready_viewer _ R) as (ds & cam & Hv).
    destruct (ready_session ids (evs ++ evs') Hc Hb) as [R' _].
    destruct (ready_viewer _ R') as (ds' & cam' & Hv').
    destruct (run_appends evs' _ R) as [extra Hx].
    rewrite <- session_app in Hx. unfold overlays in Hx.
    rewrite Hv, Hv' in Hx. simpl in Hx. subst ds'.
    exists ds, cam, extra, cam'. split; assumption.
  - intros w v vw Hv w'. subst w'. unfold job.
    rewrite exec_clickHandler by eauto. simpl.
    rewrite list_lookup_alter_eq, Hv.
    repeat split; try reflexivity.
    intros v' Hne. apply list_lookup_alter_ne. congruence.
  - intros w v vw s Hv w'. subst w'. rewrite exec_perform. simpl.
    rewrite Hv. simpl. rewrite list_lookup_alter_eq, Hv.
    repeat split; try reflexivity.
    intros v' Hne. apply list_lookup_alter_ne. congruence.
Qed.

Lemma C8_overlay_kept_by_later_events :
  exists ds cam extra cam',
    viewers (session [Click button; Settle 0 true] {[ "cesiumContainer"; button ]})
      = [the_viewer ds cam] /\
    viewers (session ([Click button; Settle 0 true] ++ [Click button; Drag 0 3])
                     {[ "cesiumContainer"; button ]})
      = [the_viewer (ds ++ extra) cam'].
Proof.
  refine (proj1 C8_only_appends_overlays {[ "cesiumContainer"; button ]}
            [Click button; Settle 0 true] [Click button; Drag 0 3] _ _).
  - vm_compute. reflexivity.
  - vm_compute. reflexivity.
Defined.

(** C9: the listener issues its load-request and its camera reset
    whatever the engine answers and whatever the state: the calls it
    makes are the same for two engines that hand out the same promise
    for the load, even when they answer the append and the camera reset
    differently, so neither answer is used; for any engine they are one
    load-request for the trajectory file, the append of what that request
    returned, and one camera reset with duration zero, and the listener
    returns nothing.  Run on two worlds, it issues the same load-request
    and the same camera reset on both. *)
Theorem C9_listener_is_unconditional :
  (forall (v : ViewerRef) (o1 o2 : oracle),
     o1 _ (CzmlLoad czml) = o2 _ (CzmlLoad czml) ->
     calls o1 (clickHandler v) = calls o2 (clickHandler v)) /\
  (forall (v : ViewerRef) (o : oracle),
     calls o (clickHandler v)
       = [CLoad czml; CAdd v (o _ (CzmlLoad czml)); CFlyHome v 0] /\
     result o (clickHandler v) = Some tt) /\
  (forall (v : ViewerRef) (w1 w2 : World),
     is_Some (viewers w1 !! v) -> is_Some (viewers w2 !! v) ->
     exec (clickHandler v) w1 = (clicked v w1, inr tt) /\
     exec (clickHandler v) w2 = (clicked v w2, inr tt) /\
     issued (clicked v w1)
       = issued w1 ++ [CLoad czml; CAdd v (length (loads w1)); CFlyHome v 0] /\
     issued (clicked v w2)
       = issued w2 ++ [CLoad czml; CAdd v (length (loads w2)); CFlyHome v 0]).
Proof.
  split; [|split].
  - intros v o1 o2 H. simpl. unfold czml in H. rewrite H. reflexivity.
  - intros v o. split; [reflexivity|]. simpl.
    destruct (o unit _). reflexivity.
  - intros v w1 w2 H1 H2.
    split; [apply exec_clickHandler, H1|].
    split; [apply exec_clickHandler, H2|]. split; reflexivity.
Qed.

Lemma C9_answers_of_append_are_not_used :
  calls (answering 4 (Added 0 4)) (clickHandler 0)
    = calls (answering 4 (Added 7 9)) (clickHandler 0).
Proof.
  refine (proj1 C9_listener_is_unconditional 0
            (answering 4 (Added 0 4)) (answering 4 (Added 7 9)) _).
  reflexivity.
Defined.

(** C10: the start is sequential and handles no error.  When the
    construction of the session fails, the script ends there with that
    error: the world is the one the failed construction left, and the
    error is reported as uncaught.  On a page without the container
    nothing but the construction is ever issued: no credit override, no
    element lookup, no listener registration; no element has a listener,
    and no later event issues a load-request or a camera reset. *)
Theorem C10_failed_construction_stops_the_start :
  (forall (w w' : World) (e : error),
     engine (NewViewer "cesiumContainer" viewer_options) w = (w', inl e) ->
     exec script w = (w', inl e) /\ boot w = report e w') /\
  (forall (ids : gset string) (evs : list event),
     "cesiumContainer" ∉ ids ->
     let w := session evs ids in
     w = stuck ids /\
     issued w = [CNewViewer "cesiumContainer" viewer_options] /\
     load_requests (issued w) = [] /\
     camera_resets (issued w) = [] /\
     viewers w = [] /\
     uncaught w = [DeveloperError "cesiumContainer"] /\
     (forall id el, document w !! id = Some el -> listeners el = [])).
Proof.
  split.
  - intros w w' e H.
    assert (E : exec script w = (w', inl e)).
    { unfold script. apply exec_throws. rewrite exec_perform. exact H. }
    split; [exact E|]. unfold boot, job. rewrite E. reflexivity.
  - intros ids evs Hc w.
    assert (E : w = stuck ids).
    { subst w. unfold session. rewrite (boot_stuck _ Hc). apply run_stuck. }
    rewrite E. repeat split.
    intros id el [_ <-]%lookup_gset_to_gmap_Some. reflexivity.
Qed.

Lemma C10_page_without_container :
  let w := session [Click button; Settle 0 true; Click button] {[ button ]} in
  issued w = [CNewViewer "cesiumContainer" viewer_options] /\
  load_requests (issued w) = [] /\ camera_resets (issued w) = [].
Proof.
  cbv zeta.
  pose proof (proj2 C10_failed_construction_stops_the_start {[ button ]}
                [Click button; Settle 0 true; Click button]) as H.
  cbv zeta in H.
  destruct H as (_ & Hi & Hl & Hr & _).
  - intros Hin. vm_compute in Hin. discriminate Hin.
  - split; [exact Hi|]. split; [exact Hl|exact Hr].
Defined.

(** ** Further properties of the script *)

Lemma boot_unwired (ids : gset string) :
  "cesiumContainer" ∈ ids -> button ∉ ids -> boot (page ids) = unwired ids AtHome.
Proof.
  intros Hc Hb. unfold boot, job.
  rewrite (exec_script_no_button _ _ (page_lookup _ _ Hc)); [reflexivity|].
  simpl. apply lookup_gset_to_gmap_None. exact Hb.
Qed.

Lemma step_unwired (ids : gset string) (cam : Camera) (e : event) :
  exists cam', step (unwired ids cam) e = unwired ids cam'.
Proof.
  destruct e as [id|p ok|v pose]; simpl.
  - exists cam. unfold dispatch. simpl.
    destruct (gset_to_gmap _ ids !! id) as [el|] eqn:Hel; [|reflexivity].
    apply lookup_gset_to_gmap_Some in Hel as [_ <-]. reflexivity.
  - exists cam. reflexivity.
  - destruct v as [|v]; [exists (Away pose)|exists cam]; reflexivity.
Qed.

Lemma run_unwired (ids : gset string) (evs : list event) (cam : Camera) :
  exists cam', run evs (unwired ids cam) = unwired ids cam'.
Proof.
  revert cam. induction evs as [|e evs IH]; intros cam; simpl; [eauto|].
  destruct (step_unwired ids cam e) as [cam' ->]. apply IH.
Qed.

(** X1: on a page that has the container but not the button, the session
    is constructed and its credit element hidden, then the start ends
    with a type error at the registration, which nothing catches.  No
    element ever has a listener, so whatever events follow no load is
    requested, no camera reset is issued and no overlay appears. *)
Theorem X1_missing_button_leaves_session_unwired
    (ids : gset string) (evs : list event) :
  "cesiumContainer" ∈ ids -> button ∉ ids ->
  let w := session evs ids in
  (exists cam, w = unwired ids cam) /\
  (exists cam, viewers w = [the_viewer [] cam]) /\
  issued w = [ CNewViewer "cesiumContainer" viewer_options;
               CSetCreditDisplay 0 "none"; CGetElementById button ] /\
  uncaught w = [TypeError] /\
  loads w = [] /\ overlays w = [] /\
  (forall id el, document w !! id = Some el -> listeners el = []).
Proof.
  intros Hc Hb w.
  assert (E : exists cam, w = unwired ids cam).
  { subst w. unfold session. rewrite (boot_unwired _ Hc Hb). apply run_unwired. }
  destruct E as [cam E]. rewrite E. split; [eauto|]. split; [simpl; eauto|].
  repeat split.
  intros id el [_ <-]%lookup_gset_to_gmap_Some. reflexivity.
Qed.

Lemma X1_page_with_container_only :
  let w := session [Click button; Drag 0 2; Click button] {[ "cesiumContainer" ]} in
  uncaught w = [TypeError] /\ loads w = [] /\ overlays w = [].
Proof.
  cbv zeta.
  pose proof (X1_missing_button_leaves_session_unwired {[ "cesiumContainer" ]}
                [Click button; Drag 0 2; Click button]) as H.
  cbv zeta in H.
  destruct H as (_ & _ & _ & Hu & Hl & Ho & _).
  - vm_compute. reflexivity.
  - intros Hin. vm_compute in Hin. discriminate Hin.
  - split; [exact Hu|]. split; [exact Hl|exact Ho].
Defined.

Lemma document_step (w : World) (e : event) :
  Ready w -> document (step w e) = document w.
Proof.
  intros R. destruct e as [id|p ok|v pose]; simpl.
  - destruct (decide (id = button)) as [->|Hne].
    + rewrite (dispatch_button _ R). reflexivity.
    + rewrite (dispatch_other _ _ R Hne). reflexivity.
  - destruct (loads w !! p) as [l|] eqn:Hl;
      [|rewrite settle_other; [reflexivity|intros ? ?; congruence]].
    destruct (decide (state l = Pending)) as [Hs|Hs];
      [|rewrite settle_other; [reflexivity|intros ? ?; congruence]].
    destruct ok.
    + rewrite (settle_fulfilled _ _ _ R Hl Hs). reflexivity.
    + rewrite (settle_rejected _ _ _ R Hl Hs). reflexivity.
  - reflexivity.
Qed.

(** X3: the script registers its listener once, while the page loads,
    and never touches the page again: after any events the elements of
    the page are those the page had, the button carrying exactly the one
    click listener.  Clicks neither register the listener again nor
    remove it. *)
Theorem X3_page_elements_fixed_after_start
    (ids : gset string) (evs : list event) :
  "cesiumContainer" ∈ ids -> button ∈ ids ->
  document (session evs ids)
    = <[button := {| listeners := [("click", SatellitesClick 0)] |}]>
        (document (page ids)).
Proof.
  intros Hc Hb. induction evs as [|e evs IH] using rev_ind.
  - unfold session. simpl. rewrite (boot_page _ Hc Hb). reflexivity.
  - rewrite session_snoc, document_step; [exact IH|].
    apply (ready_session ids evs Hc Hb).
Qed.

Lemma X3_button_after_three_clicks :
  document (session [Click button; Click button; Settle 0 true; Click button]
                    {[ "cesiumContainer"; button ]}) !! button
    = Some {| listeners := [("click", SatellitesClick 0)] |}.
Proof.
  rewrite (X3_page_elements_fixed_after_start {[ "cesiumContainer"; button ]}
             [Click button; Click button; Settle 0 true; Click button]).
  - vm_compute. reflexivity.
  - vm_compute. reflexivity.
  - vm_compute. reflexivity.
Defined.

(** X4: on a started page, after any events in any order, the overlay
    collection holds exactly one overlay for each load that has been
    fulfilled and none for a load that is pending or was rejected; every
    overlay was read from the trajectory file.  So which overlays are
    there depends on which loads succeeded, not on the order in which
    they settled. *)
Theorem X4_one_overlay_per_fulfilled_load
    (ids : gset string) (evs : list event) :
  "cesiumContainer" ∈ ids -> button ∈ ids ->
  let w := session evs ids in
  NoDup (ds_load <$> overlays w) /\
  (forall i, i ∈ ds_load <$> overlays w <-> state <$> loads w !! i = Some Fulfilled) /\
  Forall (fun d => ds_url d = czml) (overlays w).
Proof.
  intros Hc Hb w. destruct (exact_session ids evs Hc Hb) as [Hnd Hall].
  destruct (ready_session ids evs Hc Hb) as [R _].
  pose proof (ready_sources _ R) as Hf. fold w in Hnd, Hall, Hf.
  split; [exact Hnd|]. split.
  - intros i. split; [|apply Hall].
    intros Hin. apply list_elem_of_fmap in Hin as (d & -> & Hd).
    rewrite Forall_forall in Hf. apply (Hf d Hd).
  - eapply Forall_impl; [exact Hf|]. intros d [Hu _]. exact Hu.
Qed.

Lemma X4_second_load_first :
  let w := session [Click button; Click button; Click button;
                    Settle 1 true; Settle 0 false; Settle 2 true]
                   {[ "cesiumContainer"; button ]} in
  NoDup (ds_load <$> overlays w) /\
  (1 ∈ ds_load <$> overlays w <-> state <$> loads w !! 1 = Some Fulfilled).
Proof.
  cbv zeta.
  pose proof (X4_one_overlay_per_fulfilled_load {[ "cesiumContainer"; button ]}
                [Click button; Click button; Click button;
                 Settle 1 true; Settle 0 false; Settle 2 true]) as H.
  cbv zeta in H.
  destruct H as (Hnd & Hiff & _).
  - vm_compute. reflexivity.
  - vm_compute. reflexivity.
  - split; [exact Hnd|apply Hiff].
Defined.


